(** * TAMSys: compliance gap analysis and certification lifecycle

    A shallow embedding of the decision logic of TAMSys, with the
    properties stated about it.  The frontend (React + TypeScript) is
    embedded from its sources: the grouping and display of gap results,
    the record edit form, the task progress, the labelling artwork
    matcher, the tenant slice and the date helpers.  The gap analysis
    engine and the expiry sweeper run in the backend service, whose code
    is not available; they are modelled from the design specification and
    marked as such.

    JavaScript values are modelled as follows: an optional field [x?: T]
    or a [T | null] value is an [option T]; database identifiers
    ([number]) are [N]; strings are [string]; percentages are IEEE 754
    doubles; plain objects used as dictionaries are [gmap]s. *)

From Stdlib Require Import ZArith Floats.
From stdpp Require Import gmap strings list fin_maps sorting.

Local Open Scope string_scope.

(** ** JavaScript truthiness and the [||] / [??] operators *)
Module JS.

(** [!!s] for [s : string | undefined | null]: the empty string is falsy. *)
Definition truthy (s : option string) : bool :=
  match s with
  | Some s => negb (String.eqb s "")
  | None => false
  end.

(** [a || b] on optional strings. *)
Definition or (a b : option string) : option string :=
  if truthy a then a else b.

(** [n || 0] on an optional count: [undefined] and [0] both give [0]. *)
Definition or_zero (n : option N) : N := default 0%N n.

(** [a ?? b]: only [null] and [undefined] fall through. *)
Definition nullish {A} (a : option A) (b : A) : A := default b a.

(** [Object.values(o)] for an object whose keys are canonical array
    indices: own properties are enumerated in ascending numeric order. *)
Definition key_le {V} (p q : N * V) : Prop := (p.1 ≤ q.1)%N.

Global Instance key_le_dec {V} (p q : N * V) : Decision (key_le p q).
Proof. unfold key_le. apply _. Defined.

Definition Object_values {V} (o : gmap N V) : list V :=
  (merge_sort key_le (map_to_list o)).*2.

End JS.

(** ** Data model ([types/models.types.ts]) *)

Inductive ComplianceStatus := PENDING | ACTIVE | EXPIRING | EXPIRED.

Global Instance ComplianceStatus_eq_dec : EqDecision ComplianceStatus.
Proof. solve_decision. Defined.

(** The string value of each enum member. *)
Definition status_name (s : ComplianceStatus) : string :=
  match s with
  | PENDING => "PENDING"
  | ACTIVE => "ACTIVE"
  | EXPIRING => "EXPIRING"
  | EXPIRED => "EXPIRED"
  end.

Inductive LabelingStatus := LABEL_PENDING | LABEL_DONE.

Global Instance LabelingStatus_eq_dec : EqDecision LabelingStatus.
Proof. solve_decision. Defined.

Inductive TaskStatus := TODO | IN_PROGRESS | DONE.

Global Instance TaskStatus_eq_dec : EqDecision TaskStatus.
Proof. solve_decision. Defined.

(** [GapAnalysisResultItem]: one entry per required
    (certification, technology) pair. *)
Record GapAnalysisResultItem := {
  certification_id : N;
  certification_name : string;
  technology : string;
  has_gap : bool;
  status : option string;
  expiry_date : option string;
  compliance_record_id : option string;
  branding_image_url : option string;
  labeling_requirements : option string;
  open_tasks_count : option N;
}.

(** [GapAnalysisResponse]. *)
Record GapAnalysisResponse := {
  device_id : string;
  country_id : N;
  total_required : nat;
  gaps_found : nat;
  results : list GapAnalysisResultItem;
}.

(** ** Grouping of gap results ([GapResultsTable.tsx], [groupedResults]) *)

Record GroupedResult := {
  g_certification_id : N;
  g_certification_name : string;
  g_technologies : list string;
  g_has_gap : bool;
  g_status : option string;
  g_expiry_date : option string;
  g_compliance_record_id : option string;
  g_branding_image_url : option string;
  g_labeling_requirements : option string;
  g_open_tasks_count : option N;
}.

(** The row created for the first item of a certification. *)
Definition new_group (item : GapAnalysisResultItem) : GroupedResult :=
  {| g_certification_id := certification_id item;
     g_certification_name := certification_name item;
     g_technologies := [technology item];
     g_has_gap := has_gap item;
     g_status := status item;
     g_expiry_date := expiry_date item;
     g_compliance_record_id := compliance_record_id item;
     g_branding_image_url := branding_image_url item;
     g_labeling_requirements := labeling_requirements item;
     g_open_tasks_count := Some (JS.or_zero (open_tasks_count item)) |}.

(** The in-place update of an existing row by a further item. *)
Definition merge_group (existing : GroupedResult) (item : GapAnalysisResultItem)
  : GroupedResult :=
  {| g_certification_id := g_certification_id existing;
     g_certification_name := g_certification_name existing;
     g_technologies :=
       if bool_decide (technology item ∈ g_technologies existing)
       then g_technologies existing
       else g_technologies existing ++ [technology item];
     g_has_gap := g_has_gap existing || has_gap item;
     g_status := JS.or (g_status existing) (status item);
     g_expiry_date := JS.or (g_expiry_date existing) (expiry_date item);
     g_compliance_record_id := g_compliance_record_id existing;
     g_branding_image_url := g_branding_image_url existing;
     g_labeling_requirements := g_labeling_requirements existing;
     g_open_tasks_count := g_open_tasks_count existing |}.

(** The reducer callback: [acc] is keyed by [certification_id]. *)
Definition group_step (acc : gmap N GroupedResult) (item : GapAnalysisResultItem)
  : gmap N GroupedResult :=
  match acc !! certification_id item with
  | None => <[certification_id item := new_group item]> acc
  | Some existing => <[certification_id item := merge_group existing item]> acc
  end.

Definition group_acc (results : list GapAnalysisResultItem)
  : gmap N GroupedResult :=
  foldl group_step ∅ results.

Definition groupedResults (results : list GapAnalysisResultItem)
  : list GroupedResult :=
  JS.Object_values (group_acc results).

(** The result items that belong to certification [c], and the rows of a
    table that show it. *)
Definition contributing (c : N) (results : list GapAnalysisResultItem)
  : list GapAnalysisResultItem :=
  filter (λ item, certification_id item = c) results.

Definition rows_for (c : N) (rows : list GroupedResult) : list GroupedResult :=
  filter (λ g, g_certification_id g = c) rows.

(** What the accumulator of the reduction holds under key [c] once the
    items of [results] have been folded in: nothing when no item belongs
    to [c]; otherwise a row of [c] whose technologies are the distinct
    technology names of the items of [c] and whose gap flag is their
    disjunction. *)
Definition group_inv (c : N) (results : list GapAnalysisResultItem)
    (entry : option GroupedResult) : Prop :=
  match entry with
  | None => contributing c results = []
  | Some g =>
      contributing c results ≠ []
      ∧ g_certification_id g = c
      ∧ NoDup (g_technologies g)
      ∧ (∀ t, t ∈ g_technologies g ↔ t ∈ technology <$> contributing c results)
      ∧ (g_has_gap g = true
         ↔ ∃ item, item ∈ contributing c results ∧ has_gap item = true)
  end.

(** ** Status cells of the result tables *)

(** [GapResultsTable.tsx], Status column: the text of the rendered tag. *)
Definition render_status (record : GroupedResult) : string :=
  if g_has_gap record then "MISSING" else default "" (g_status record).

(** [DeviceCountryProgress.tsx], [renderCertificationsTable], Status
    column, applied to the ungrouped response items. *)
Definition render_item_status (item : GapAnalysisResultItem) : string :=
  if has_gap item then "MISSING"
  else if JS.truthy (status item) then default "" (status item) else "COMPLIANT".

(** ** Strings: [toLowerCase] and [includes]

    Strings are sequences of 8-bit characters.  [toLowerCase] maps the
    letters A-Z to a-z and leaves every other character unchanged, which
    is what JavaScript does on ASCII names such as those of the
    certifications and labels handled here. *)

Definition lower_char (c : Ascii.ascii) : Ascii.ascii :=
  let n := Ascii.N_of_ascii c in
  if ((65 <=? n) && (n <=? 90))%N then Ascii.ascii_of_N (n + 32) else c.

Fixpoint toLowerCase (s : string) : string :=
  match s with
  | EmptyString => EmptyString
  | String c s' => String (lower_char c) (toLowerCase s')
  end.

(** [s.includes(sub)]: [sub] occurs in [s] as a contiguous substring. *)
Fixpoint includes (s sub : string) : bool :=
  String.prefix sub s ||
  match s with
  | EmptyString => false
  | String _ s' => includes s' sub
  end.

(** ** Labelling artwork matcher ([ComplianceRecordDetailPage], [matchingLabel]) *)

(** [ComplianceRecord], the tracked certification of one (tenant, device,
    country, certification).  Calendar dates are day numbers and
    timestamps are time values in milliseconds. *)
Record ComplianceRecord := {
  r_id : string;
  r_tenant_id : string;
  r_device_id : string;
  r_country_id : N;
  r_certification_id : N;
  r_status : ComplianceStatus;
  r_labeling_status : option LabelingStatus;
  r_expiry_date : option Z;
  r_certificate_number : option string;
  r_last_notified_at : option Z;
  r_certification_name : option string;
  r_test_report_filename : option string;
  r_task_progress_percent : option float;
}.

(** [CertificationLabel]; [l_region] is [requirements?.region]. *)
Record CertificationLabel := {
  l_id : N;
  l_name : string;
  l_country_id : option N;
  l_region : option string;
}.

(** The predicate passed to [labels.find]. *)
Definition label_matches (record : ComplianceRecord) (l : CertificationLabel) : bool :=
  let certName := default "" (toLowerCase <$> r_certification_name record) in
  let labelName := toLowerCase (l_name l) in
  if String.eqb labelName certName || includes labelName certName
     || includes certName labelName then true
  else if String.eqb certName "telec" && includes labelName "giteki" then true
  else if includes certName "fcc" && includes labelName "fcc" then true
  else if String.eqb certName "wpc" && includes labelName "bis" then false
  else if bool_decide (l_region l = Some "EU")
          && bool_decide (r_certification_name record = Some "CE") then true
  else if bool_decide (l_country_id l = Some (r_country_id record)) then true
  else false.

(** [record && labels?.find(...)]. *)
Definition matchingLabel (record : option ComplianceRecord)
    (labels : option (list CertificationLabel)) : option CertificationLabel :=
  match record, labels with
  | Some record, Some labels => List.find (label_matches record) labels
  | _, _ => None
  end.

(** ** Tenant slice ([tenantSlice], reducers with [localStorage]) *)

Record Tenant := {
  t_id : string;
  t_name : string;
  t_contact_email : string;
  t_is_active : bool;
}.

Record TenantState := {
  currentTenantId : option string;
  tenants : list Tenant;
}.


(** [initialState]: the id kept in [localStorage], if any and not empty. *)
Definition initialState (localStorage : gmap string string) : TenantState :=
  {| currentTenantId := JS.or (localStorage !! "currentTenantId") None;
     tenants := [] |}.



(** ** [daysUntil] ([utils/formatters.ts])

    Instants are time values in milliseconds.  The result of a day
    difference is an integer or [NaN]. *)

Inductive number := NaN | Int (z : Z).



Definition MILLISECONDS_A_DAY : Z := 86400000.

Section Dayjs.
(** The environment of the dayjs library: how a date string parses (to a
    time value, or to an invalid date) and the local zone's offset from
    UTC, in minutes, at an instant. *)
Variable parse : string → option Z.
Variable utcOffset : Z → Z.



End Dayjs.

(** ** Task progress ([ComplianceTaskDetailPage.tsx], [progressPercent])

    Percentages are IEEE 754 doubles, as in JavaScript. *)

Record ComplianceTask := {
  task_id : string;
  task_title : string;
  task_status : TaskStatus;
}.

(** The double holding a count. *)
Definition float_of_nat (n : nat) : float :=
  PrimFloat.of_uint63 (Uint63.of_Z (Z.of_nat n)).

(** [Math.round]: the nearest integer, ties towards +infinity, computed
    exactly from the mantissa and exponent of the argument.  Integers,
    zeros, infinities and [NaN] are returned unchanged, and a negative
    argument that rounds to zero gives [-0]. *)
Definition Math_round (x : float) : float :=
  match Prim2SF x with
  | S754_finite s m e =>
      if (0 <=? e)%Z then x
      else
        let d := (2 ^ (- e))%Z in
        let v := if s then Z.neg m else Z.pos m in
        let k := ((2 * v + d) / (2 * d))%Z in
        if (k =? 0)%Z then (if s then (-0)%float else 0%float)
        else if (0 <? k)%Z then PrimFloat.of_uint63 (Uint63.of_Z k)
        else PrimFloat.opp (PrimFloat.of_uint63 (Uint63.of_Z (- k)))
  | _ => x
  end.

Definition done_count (tasks : list ComplianceTask) : nat :=
  length (filter (λ t, task_status t = DONE) tasks).

Definition progressPercent (tasks : option (list ComplianceTask))
    (initialProgress : option float) : float :=
  match tasks with
  | Some ((_ :: _) as tasks) =>
      Math_round
        (float_of_nat (done_count tasks) / float_of_nat (length tasks) * 100)%float
  | _ => JS.nullish initialProgress 0%float
  end.

(** ** Record edit form ([ComplianceRecordEditPage.tsx]) *)

Inductive DocType := certificate | test_report.

Global Instance DocType_eq_dec : EqDecision DocType.
Proof. solve_decision. Defined.

(** The values held by the form; [f_expiry_date] is the day picked in the
    date picker. *)
Record FormValues := {
  f_status : option ComplianceStatus;
  f_labeling_status : option LabelingStatus;
  f_doc_type : option DocType;
  f_certificate_number : option string;
  f_expiry_date : option Z;
}.

(** Rule of the Status item: [required: true]. *)
Definition validate_status (v : FormValues) : list string :=
  match f_status v with
  | Some _ => []
  | None => ["Select status"]
  end.

(** Validator of the Expiry Date item; [one_month_ago] is the day of
    [dayjs().subtract(1, 'month')]. *)
Definition validate_expiry_date (one_month_ago : Z) (v : FormValues) : list string :=
  match f_expiry_date v with
  | None =>
      if bool_decide (f_status v = Some ACTIVE)
      then ["Expiry date is required for Active status"] else []
  | Some value =>
      if (value <? one_month_ago)%Z
      then ["Expiry date cannot be more than 1 month in the past"] else []
  end.

(** Rules of the Certificate Number item: the validator, then [max: 25]. *)
Definition validate_certificate_number (v : FormValues) : list string :=
  (if bool_decide (f_status v = Some ACTIVE) && negb (JS.truthy (f_certificate_number v))
   then ["Certificate number is required for Active status"] else []) ++
  (if (25 <? String.length (default "" (f_certificate_number v)))%nat
   then ["Certificate number must be at most 25 characters"] else []).

(** Validator of the Upload Document item. *)
Definition validate_upload (record : ComplianceRecord) (uploadFile : bool)
    (v : FormValues) : list string :=
  if bool_decide (f_doc_type v = Some test_report) then
    let hasExisting := JS.truthy (r_test_report_filename record) in
    if negb uploadFile && negb hasExisting
    then ["Test Report document is required"] else []
  else [].

(** Validation on Save runs the rules of the items that are rendered: the
    Expiry Date and Certificate Number items exist only while the document
    type is [certificate]. *)
Definition validateFields (one_month_ago : Z) (record : ComplianceRecord)
    (uploadFile : bool) (v : FormValues) : list string :=
  validate_status v ++
  (if bool_decide (f_doc_type v = Some certificate)
   then validate_expiry_date one_month_ago v ++ validate_certificate_number v
   else []) ++
  validate_upload record uploadFile v.

(** The values handed to [onFinish]: those of the rendered items. *)
Definition finish_values (v : FormValues) : FormValues :=
  if bool_decide (f_doc_type v = Some certificate) then v
  else {| f_status := f_status v;
          f_labeling_status := f_labeling_status v;
          f_doc_type := f_doc_type v;
          f_certificate_number := None;
          f_expiry_date := None |}.

(** The body of the PUT request built by [updateMutation]. *)
Record UpdatePayload := {
  p_status : option ComplianceStatus;
  p_labeling_status : option LabelingStatus;
  p_certificate_number : option string;
  p_expiry_date : option Z;
}.

Definition payload (values : FormValues) : UpdatePayload :=
  {| p_status := f_status values;
     p_labeling_status := f_labeling_status values;
     p_certificate_number :=
       if JS.truthy (f_certificate_number values)
       then f_certificate_number values else None;
     p_expiry_date := f_expiry_date values |}.

(** Pressing Save: either the validation errors shown on the form, or the
    update request that is sent. *)
Definition submit (one_month_ago : Z) (record : ComplianceRecord)
    (uploadFile : bool) (v : FormValues) : list string + UpdatePayload :=
  match validateFields one_month_ago record uploadFile v with
  | [] => inr (payload (finish_values v))
  | errors => inl errors
  end.

(** ** Regulatory matrix and gap analysis engine

    The engine runs in the backend service; the frontend declares the
    shape of its inputs and of its response. *)

(** [Technology], [Certification], [RegulatoryRule], [Device]
    ([types/models.types.ts]). *)
Record Technology := {
  tech_id : N;
  tech_name : string;
}.

Record Certification := {
  cert_id : N;
  cert_name : string;
}.

Record RegulatoryRule := {
  rule_technology_id : N;
  rule_country_id : N;
  rule_certification_id : N;
  rule_is_mandatory : bool;
}.

Record Device := {
  d_id : string;
  d_tenant_id : string;
  d_technologies : list Technology;
}.

(** Modelled from the spec: the read-only reference data handed to the
    engine (section 9), of which the backend's loader is missing: the
    regulatory rules and the certification catalogue. *)
Record Reference := {
  ref_rules : list RegulatoryRule;
  ref_certifications : list Certification;
}.

(** Modelled from the spec: the error taxonomy of the backend
    (section 7). *)
Inductive Error :=
  | InvalidInput
  | NotFound
  | Conflict
  | ValidationError
  | PersistenceFailure.

(** Modelled from the spec: the backend's [RequiredCertifications]
    (regulatory matrix lookup, section 4.1), which is not part of the
    frontend sources.  For every technology of the input, all rules keyed
    by (technology, country) are looked up and the results united into a
    set of (certification, technology, mandatory) triples; a duplicated
    rule does not double-count, and a technology without a rule
    contributes nothing. *)
Definition RequiredCertifications (rules : list RegulatoryRule)
    (technologies : list N) (country : N) : list (N * N * bool) :=
  remove_dups
    (t ← technologies;
     r ← filter (λ r, rule_technology_id r = t ∧ rule_country_id r = country) rules;
     [(rule_certification_id r, t, rule_is_mandatory r)]).

(** Modelled from the spec: the certifications that are required
    (section 4.2, step 2), as the ids occurring in the matrix lookup. *)
Definition required_ids (rules : list RegulatoryRule)
    (technologies : list N) (country : N) : list N :=
  (λ q, q.1.1) <$> RequiredCertifications rules technologies country.

(** Modelled from the spec: the human names of a certification and of a
    product's technology that the report items carry (section 6); the
    backend's lookups are missing. *)
Definition certification_name_of (ref : Reference) (c : N) : string :=
  default "" (cert_name <$> List.find (λ x, bool_decide (cert_id x = c))
                                      (ref_certifications ref)).

Definition technology_name_of (product : Device) (t : N) : string :=
  default "" (tech_name <$> List.find (λ x, bool_decide (tech_id x = t))
                                      (d_technologies product)).

Section GapAnalysis.
(** How a calendar day is written on the wire (YYYY-MM-DD). *)
Variable iso_date : Z → string.

(** Modelled from the spec: step 3 of the backend's [Analyze]
    (section 4.2), the existing records of (tenant, product, country). *)
Definition existing_records (records : list ComplianceRecord)
    (product : Device) (country : N) : list ComplianceRecord :=
  filter (λ r, r_tenant_id r = d_tenant_id product ∧ r_device_id r = d_id product
               ∧ r_country_id r = country) records.

(** Modelled from the spec: the record held for a certification, if any
    (section 4.2, step 4; at most one exists per tuple, section 3). *)
Definition record_for (records : list ComplianceRecord) (product : Device)
    (country : N) (c : N) : option ComplianceRecord :=
  List.find (λ r, bool_decide (r_certification_id r = c))
            (existing_records records product country).

(** Modelled from the spec: step 4 of the backend's [Analyze], the result
    item of one required (certification, technology) pair, in the shape
    the frontend declares for it. *)
Definition analyze_item (ref : Reference) (records : list ComplianceRecord)
    (product : Device) (country : N) (req : N * N * bool)
  : GapAnalysisResultItem :=
  let c := req.1.1 in
  let t := req.1.2 in
  match record_for records product country c with
  | None =>
      {| certification_id := c;
         certification_name := certification_name_of ref c;
         technology := technology_name_of product t;
         has_gap := true;
         status := Some "MISSING";
         expiry_date := None;
         compliance_record_id := None;
         branding_image_url := None;
         labeling_requirements := None;
         open_tasks_count := None |}
  | Some r =>
      {| certification_id := c;
         certification_name := certification_name_of ref c;
         technology := technology_name_of product t;
         has_gap := false;
         status := Some (status_name (r_status r));
         expiry_date := iso_date <$> r_expiry_date r;
         compliance_record_id := Some (r_id r);
         branding_image_url := None;
         labeling_requirements := None;
         open_tasks_count := None |}
  end.

(** Modelled from the spec: the backend's [Analyze] (section 4.2), which
    is not part of the frontend sources.  It fails fast on a product
    without technologies; otherwise the response carries one item per
    required (certification, technology) pair, [total_required] counts the
    distinct required certifications and [gaps_found] those among them
    that have a gap.  The grouping of step 5 is [groupedResults]. *)
Definition Analyze (ref : Reference) (records : list ComplianceRecord)
    (product : Device) (country : N) : Error + GapAnalysisResponse :=
  match d_technologies product with
  | [] => inl InvalidInput
  | technologies =>
      let items :=
        analyze_item ref records product country
          <$> RequiredCertifications (ref_rules ref) (tech_id <$> technologies)
                country in
      let grouped := groupedResults items in
      inr {| device_id := d_id product;
             country_id := country;
             total_required := length grouped;
             gaps_found := length (filter (λ g, g_has_gap g = true) grouped);
             results := items |}
  end.
End GapAnalysis.

(** ** Expiry and notification sweeper *)

(** [NotificationRule] ([types/models.types.ts]). *)
Record NotificationRule := {
  nr_days_before_expiry : Z;
  nr_severity_level : string;
  nr_is_active : bool;
}.

(** Modelled from the spec: an alert handed to the notification sink
    (section 6), whose backend type is missing. *)
Record Alert := {
  alert_record_id : string;
  alert_days_left : Z;
}.

(** Modelled from the spec: the dedupe window of alerts (section 4.4,
    step 4): 7 days, in milliseconds. *)
Definition DEDUPE_WINDOW : Z := 7 * MILLISECONDS_A_DAY.

(** Modelled from the spec: the largest [days_before_expiry] among the
    tenant's active notification rules (section 4.4, step 3); absent when
    the tenant has no active rule. *)
Definition max_threshold (rules : list NotificationRule) : option Z :=
  foldr (λ rule acc,
           if nr_is_active rule
           then Some (match acc with
                      | Some m => Z.max (nr_days_before_expiry rule) m
                      | None => nr_days_before_expiry rule
                      end)
           else acc)
        None rules.

(** Modelled from the spec: the dedupe test of section 4.4, step 4: an
    alert may be emitted only if [last_notified_at] is null or more than
    7 days old. *)
Definition alert_due (now : Z) (r : ComplianceRecord) : bool :=
  match r_last_notified_at r with
  | None => true
  | Some t => (DEDUPE_WINDOW <? now - t)%Z
  end.

(** Modelled from the spec: the two writes of the sweeper to a record,
    its status and its notification timestamp (section 4.4, steps 2 to
    4). *)
Definition set_status (r : ComplianceRecord) (s : ComplianceStatus) : ComplianceRecord :=
  {| r_id := r_id r; r_tenant_id := r_tenant_id r; r_device_id := r_device_id r;
     r_country_id := r_country_id r; r_certification_id := r_certification_id r;
     r_status := s;
     r_labeling_status := r_labeling_status r; r_expiry_date := r_expiry_date r;
     r_certificate_number := r_certificate_number r;
     r_last_notified_at := r_last_notified_at r;
     r_certification_name := r_certification_name r;
     r_test_report_filename := r_test_report_filename r;
     r_task_progress_percent := r_task_progress_percent r |}.

Definition set_last_notified_at (r : ComplianceRecord) (t : Z) : ComplianceRecord :=
  {| r_id := r_id r; r_tenant_id := r_tenant_id r; r_device_id := r_device_id r;
     r_country_id := r_country_id r; r_certification_id := r_certification_id r;
     r_status := r_status r;
     r_labeling_status := r_labeling_status r; r_expiry_date := r_expiry_date r;
     r_certificate_number := r_certificate_number r;
     r_last_notified_at := Some t;
     r_certification_name := r_certification_name r;
     r_test_report_filename := r_test_report_filename r;
     r_task_progress_percent := r_task_progress_percent r |}.

(** Modelled from the spec: the sweeper's treatment of one record
    (section 4.4, steps 1 to 4), which runs in the backend scheduler and
    is not part of the frontend sources.  The result is the record as
    persisted together with the alerts handed to the notification sink; a
    record in status ACTIVE or EXPIRING without an expiry date cannot be
    evaluated and is reported as a failure, left unchanged. *)
Definition sweep_record (as_of_date now : Z) (rules : list NotificationRule)
    (r : ComplianceRecord) : string + ComplianceRecord * list Alert :=
  match r_status r with
  | ACTIVE | EXPIRING =>
      match r_expiry_date r with
      | None => inl (r_id r)
      | Some expiry =>
          let days_left := (expiry - as_of_date)%Z in
          if (days_left <? 0)%Z then inr (set_status r EXPIRED, [])
          else
            match max_threshold rules with
            | Some threshold =>
                if (days_left <=? threshold)%Z then
                  let r' := set_status r EXPIRING in
                  if alert_due now r'
                  then inr (set_last_notified_at r' now,
                            [{| alert_record_id := r_id r; alert_days_left := days_left |}])
                  else inr (r', [])
                else inr (r, [])
            | None => inr (r, [])
            end
      end
  | PENDING | EXPIRED => inr (r, [])
  end.

(** Modelled from the spec: what one step leaves behind, the record as
    persisted (unchanged on failure, section 4.4, step 5) and the alerts
    emitted. *)
Definition record_after (r : ComplianceRecord)
    (res : string + ComplianceRecord * list Alert) : ComplianceRecord :=
  match res with
  | inr (r', _) => r'
  | inl _ => r
  end.

Definition alerts_of (res : string + ComplianceRecord * list Alert) : list Alert :=
  match res with
  | inr (_, alerts) => alerts
  | inl _ => []
  end.

(** Modelled from the spec: [SweepReport] (section 6). *)
Record SweepReport := {
  updated : list string;
  failed : list string;
}.

(** Modelled from the spec: the state threaded through a sweep
    (section 4.4): the records as persisted so far, the alerts emitted so
    far and the report. *)
Record SweepState := {
  sw_records : list ComplianceRecord;
  sw_alerts : list Alert;
  sw_report : SweepReport;
}.

(** Modelled from the spec: one iteration of the sweep (section 4.4,
    step 5): the record is evaluated against its tenant's rules, and a
    failure is collected without stopping the run. *)
Definition sweep_step (rules_of : string → list NotificationRule)
    (as_of_date now : Z) (st : SweepState) (r : ComplianceRecord) : SweepState :=
  let res := sweep_record as_of_date now (rules_of (r_tenant_id r)) r in
  {| sw_records := sw_records st ++ [record_after r res];
     sw_alerts := sw_alerts st ++ alerts_of res;
     sw_report :=
       match res with
       | inl id =>
           {| updated := updated (sw_report st);
              failed := failed (sw_report st) ++ [id] |}
       | inr (r', _) =>
           {| updated :=
                if bool_decide (r_status r' = r_status r
                                ∧ r_last_notified_at r' = r_last_notified_at r)
                then updated (sw_report st)
                else updated (sw_report st) ++ [r_id r];
              failed := failed (sw_report st) |}
       end |}.

(** Modelled from the spec: the backend's [RunSweep] (sections 4.4 and
    6), missing from the sources: every record of every tenant is
    evaluated in turn. *)
Definition RunSweep (rules_of : string → list NotificationRule)
    (as_of_date now : Z) (records : list ComplianceRecord) : SweepState :=
  foldl (sweep_step rules_of as_of_date now)
        {| sw_records := []; sw_alerts := [];
           sw_report := {| updated := []; failed := [] |} |}
        records.

(** ** Scenarios

    Concrete data on which the definitions above are exercised. *)

Definition item_for (c : N) (name tech : string) (gap : bool) (st : string)
  : GapAnalysisResultItem :=
  {| certification_id := c; certification_name := name; technology := tech;
     has_gap := gap; status := Some st; expiry_date := None;
     compliance_record_id := None; branding_image_url := None;
     labeling_requirements := None; open_tasks_count := None |}.

Definition wifi6e : Technology := {| tech_id := 1; tech_name := "Wi-Fi 6E" |}.
Definition bluetooth : Technology := {| tech_id := 2; tech_name := "Bluetooth" |}.
Definition india : N := 2.
Definition wpc : N := 5.

(** India requires WPC both for Wi-Fi 6E and for Bluetooth. *)
Definition india_reference : Reference :=
  {| ref_rules :=
       [ {| rule_technology_id := 1; rule_country_id := india;
            rule_certification_id := wpc; rule_is_mandatory := true |};
         {| rule_technology_id := 2; rule_country_id := india;
            rule_certification_id := wpc; rule_is_mandatory := true |} ];
     ref_certifications := [ {| cert_id := wpc; cert_name := "WPC" |} ] |}.

Definition tractor : Device :=
  {| d_id := "device-1"; d_tenant_id := "tenant-1";
     d_technologies := [wifi6e; bluetooth] |}.

(** The tractor's WPC record for India. *)
Definition wpc_record (st : ComplianceStatus) (expiry notified : option Z)
  : ComplianceRecord :=
  {| r_id := "record-1"; r_tenant_id := "tenant-1"; r_device_id := "device-1";
     r_country_id := india; r_certification_id := wpc; r_status := st;
     r_labeling_status := None; r_expiry_date := expiry;
     r_certificate_number := None; r_last_notified_at := notified;
     r_certification_name := Some "WPC"; r_test_report_filename := None;
     r_task_progress_percent := None |}.

Definition iso_constant (_ : Z) : string := "2025-12-31".

Definition ninety_days (_ : string) : list NotificationRule :=
  [ {| nr_days_before_expiry := 90; nr_severity_level := "HIGH";
       nr_is_active := true |} ].

Definition task_with (s : TaskStatus) : ComplianceTask :=
  {| task_id := "task"; task_title := "Compliance Testing"; task_status := s |}.

Definition wpc_bis_label : CertificationLabel :=
  {| l_id := 1; l_name := "WPC/BIS Mark"; l_country_id := Some india;
     l_region := None |}.

Definition bis_label : CertificationLabel :=
  {| l_id := 2; l_name := "BIS Standard Mark"; l_country_id := Some india;
     l_region := None |}.



(** A form that activates a record while the document type is a test
    report, with neither expiry date nor certificate number. *)
Definition activate_with_test_report : FormValues :=
  {| f_status := Some ACTIVE; f_labeling_status := Some LABEL_PENDING;
     f_doc_type := Some test_report; f_certificate_number := None;
     f_expiry_date := None |}.

Definition activate_with_certificate (number : option string) (expiry : option Z)
  : FormValues :=
  {| f_status := Some ACTIVE; f_labeling_status := Some LABEL_PENDING;
     f_doc_type := Some certificate; f_certificate_number := number;
     f_expiry_date := expiry |}.

(** * Properties *)

(** ** Grouping of gap results *)

Lemma group_acc_snoc results item :
  group_acc (results ++ [item]) = group_step (group_acc results) item.
Proof. unfold group_acc. by rewrite foldl_app. Qed.

Lemma contributing_snoc c results item :
  contributing c (results ++ [item]) =
  (contributing c results
     ++ (if decide (certification_id item = c) then [item] else []))%list.
Proof. unfold contributing. by rewrite filter_app. Qed.

Lemma group_acc_inv results c : group_inv c results (group_acc results !! c).
Proof.
  induction results as [|item results IH] using rev_ind; [done|].
  rewrite group_acc_snoc. unfold group_step.
  destruct (decide (certification_id item = c)) as [Hc|Hc].
  - subst c. revert IH. unfold group_inv.
    rewrite contributing_snoc, decide_True by done.
    destruct (group_acc results !! certification_id item) as [g|] eqn:Hg.
    + intros (Hne & Hid & Hnd & Htech & Hgap).
      rewrite lookup_insert_eq. simpl.
      split; [by destruct (contributing _ results)|].
      split; [done|]. split; [|split].
      * case_bool_decide; [done|].
        apply NoDup_app. split; [done|]. split; [|apply NoDup_singleton].
        intros t Ht ->%list_elem_of_singleton. done.
      * intros t. rewrite fmap_app, elem_of_app, <- Htech. simpl.
        rewrite list_elem_of_singleton.
        case_bool_decide; [|rewrite elem_of_app, list_elem_of_singleton; tauto].
        split; [tauto|]. intros [?| ->]; done.
      * rewrite orb_true_iff, Hgap. split.
        -- intros [(i & Hi & Hgi)| Hgi]; [exists i|exists item];
             (split; [|done]); rewrite elem_of_app, list_elem_of_singleton; tauto.
        -- intros (i & [Hi| ->%list_elem_of_singleton]%elem_of_app & Hgi); eauto.
    + intros Hnil. rewrite lookup_insert_eq, Hnil. simpl.
      split; [done|]. split; [done|]. split; [apply NoDup_singleton|].
      split; [done|]. split.
      * intros Hgi. exists item. by rewrite list_elem_of_singleton.
      * by intros (i & ->%list_elem_of_singleton & Hgi).
  - assert (contributing c (results ++ [item]) = contributing c results) as Hcontr
      by (by rewrite contributing_snoc, decide_False, app_nil_r).
    assert (∀ g, <[certification_id item := g]> (group_acc results) !! c
                 = group_acc results !! c) as Hlook
      by (intros g; by rewrite lookup_insert_ne).
    unfold group_inv in *. rewrite Hcontr.
    by destruct (group_acc results !! certification_id item); rewrite Hlook.
Qed.

Lemma group_acc_keys results k g :
  group_acc results !! k = Some g → g_certification_id g = k.
Proof.
  intros Hg. pose proof (group_acc_inv results k) as Hinv.
  rewrite Hg in Hinv. apply Hinv.
Qed.

(** The merged status of a row whose items all report the same status. *)
Lemma group_acc_status results c st g :
  (∀ item, item ∈ contributing c results → status item = st) →
  group_acc results !! c = Some g → g_status g = st.
Proof.
  revert g. induction results as [|item results IH] using rev_ind; [done|].
  intros g Hall. rewrite group_acc_snoc. unfold group_step.
  assert (∀ i, i ∈ contributing c results → status i = st) as Hall'.
  { intros i Hi. apply Hall. rewrite contributing_snoc, elem_of_app. by left. }
  destruct (decide (certification_id item = c)) as [Hc|Hc].
  - assert (status item = st) as Hst.
    { apply Hall. rewrite contributing_snoc, decide_True, elem_of_app by done.
      right. by apply list_elem_of_singleton. }
    subst c. destruct (group_acc results !! certification_id item) as [g0|] eqn:Hg0;
      rewrite lookup_insert_eq; intros [= <-]; simpl; [|done].
    rewrite (IH g0 Hall' eq_refl), Hst. unfold JS.or. by destruct (JS.truthy st).
  - destruct (group_acc results !! certification_id item);
      rewrite lookup_insert_ne by done; by apply IH.
Qed.

Lemma filter_none {A} (P : A → Prop) `{∀ x, Decision (P x)} (l : list A) :
  (∀ x, x ∈ l → ¬ P x) → filter P l = [].
Proof.
  intros Hl. destruct (filter P l) as [|x l'] eqn:Hf; [done|].
  assert (x ∈ filter P l) as [HP Hx]%list_elem_of_filter by (rewrite Hf; left).
  by destruct (Hl x).
Qed.

(** [Object.values] lists every property once, so an object whose rows are
    stored under their own certification id yields at most one row per
    certification. *)
Lemma Object_values_rows (m : gmap N GroupedResult) c :
  (∀ k g, m !! k = Some g → g_certification_id g = k) →
  rows_for c (JS.Object_values m) =
    match m !! c with Some g => [g] | None => [] end.
Proof.
  intros Hkeys.
  assert (rows_for c (JS.Object_values m) ≡ₚ rows_for c (map_to_list m).*2) as Hperm.
  { unfold rows_for, JS.Object_values. by rewrite merge_sort_Permutation. }
  destruct (m !! c) as [g|] eqn:Hc.
  - apply Permutation_singleton_r. rewrite Hperm.
    rewrite <- (insert_delete_id m c g Hc) at 1. unfold rows_for.
    rewrite map_to_list_insert by apply lookup_delete_eq.
    rewrite fmap_cons, filter_cons_True by (simpl; eauto).
    rewrite filter_none; [done|].
    intros g' [[k g''] [-> [Hk Hg]%elem_of_map_to_list%lookup_delete_Some]]%list_elem_of_fmap.
    simpl. by rewrite (Hkeys _ _ Hg).
  - apply Permutation_nil_r. rewrite Hperm. unfold rows_for.
    rewrite filter_none; [done|].
    intros g' [[k g''] [-> Hg%elem_of_map_to_list]]%list_elem_of_fmap. simpl.
    rewrite (Hkeys _ _ Hg). congruence.
Qed.

Lemma groupedResults_rows results c :
  rows_for c (groupedResults results) =
    match group_acc results !! c with Some g => [g] | None => [] end.
Proof. apply Object_values_rows, group_acc_keys. Qed.

(** The row of a certification that occurs among the results. *)
Lemma groupedResults_row results c :
  contributing c results ≠ [] →
  ∃ g, group_acc results !! c = Some g
       ∧ rows_for c (groupedResults results) = [g]
       ∧ NoDup (g_technologies g)
       ∧ (∀ t, t ∈ g_technologies g ↔ t ∈ technology <$> contributing c results)
       ∧ (g_has_gap g = true ↔
            ∃ item, item ∈ contributing c results ∧ has_gap item = true).
Proof.
  intros Hc. rewrite groupedResults_rows.
  pose proof (group_acc_inv results c) as Hinv.
  destruct (group_acc results !! c) as [g|]; [|done].
  exists g. destruct Hinv as (_ & _ & ? & ? & ?). done.
Qed.

(** C2: when the results are grouped by certification, a certification
    that occurs in them (possibly through several technologies) is shown
    as exactly one row; the technologies of that row are the technology
    names of its items, without duplicates, and the row has a gap exactly
    when at least one of its items has. *)
Theorem groupedResults_union_any_gap results c :
  contributing c results ≠ [] →
  ∃ g, rows_for c (groupedResults results) = [g]
       ∧ NoDup (g_technologies g)
       ∧ (∀ t, t ∈ g_technologies g ↔
               ∃ item, item ∈ results ∧ certification_id item = c
                       ∧ technology item = t)
       ∧ (g_has_gap g = true ↔
            ∃ item, item ∈ results ∧ certification_id item = c
                    ∧ has_gap item = true).
Proof.
  intros Hc. destruct (groupedResults_row results c Hc) as (g & _ & Hrow & Hnd & Ht & Hg).
  exists g. split; [done|]. split; [done|]. split.
  - intros t. rewrite Ht, list_elem_of_fmap. unfold contributing. split.
    + intros (item & -> & [? ?]%list_elem_of_filter). eauto.
    + intros (item & ? & ? & <-). exists item. by rewrite list_elem_of_filter.
  - rewrite Hg. unfold contributing. split.
    + intros (item & [? ?]%list_elem_of_filter & ?). eauto.
    + intros (item & ? & ? & ?). exists item. by rewrite list_elem_of_filter.
Qed.

Lemma groupedResults_union_any_gap_witness :
  ∃ g, rows_for wpc (groupedResults
                       [item_for wpc "WPC" "Wi-Fi 6E" false "ACTIVE";
                        item_for 7 "BIS" "Bluetooth" false "ACTIVE";
                        item_for wpc "WPC" "Bluetooth" true "MISSING";
                        item_for wpc "WPC" "Wi-Fi 6E" false "ACTIVE"]) = [g]
       ∧ g_technologies g = ["Wi-Fi 6E"; "Bluetooth"]
       ∧ g_has_gap g = true.
Proof.
  destruct (groupedResults_union_any_gap
              [item_for wpc "WPC" "Wi-Fi 6E" false "ACTIVE";
               item_for 7 "BIS" "Bluetooth" false "ACTIVE";
               item_for wpc "WPC" "Bluetooth" true "MISSING";
               item_for wpc "WPC" "Wi-Fi 6E" false "ACTIVE"] wpc)
    as (g & Hrow & _).
  { vm_compute. discriminate. }
  exists g. split; [exact Hrow|].
  vm_compute in Hrow. injection Hrow as <-. split; reflexivity.
Defined.

(** ** Gap analysis *)

Section GapAnalysisFacts.
Variable iso_date : Z → string.
Variables (ref : Reference) (records : list ComplianceRecord).
Variables (product : Device) (country : N).

Let technologies := tech_id <$> d_technologies product.
Let required := RequiredCertifications (ref_rules ref) technologies country.
Let item_of := analyze_item iso_date ref records product country.

Lemma Analyze_inr resp :
  Analyze iso_date ref records product country = inr resp →
  results resp = item_of <$> required
  ∧ total_required resp = length (groupedResults (results resp))
  ∧ gaps_found resp
    = length (filter (λ g, g_has_gap g = true) (groupedResults (results resp))).
Proof.
  unfold Analyze, item_of, required, technologies.
  destruct (d_technologies product); [done|].
  by intros [= <-].
Qed.

Lemma analyze_item_certification q : certification_id (item_of q) = q.1.1.
Proof. unfold item_of, analyze_item. by destruct (record_for _ _ _ _). Qed.


Lemma analyze_item_report q :
  match record_for records product country q.1.1 with
  | None => has_gap (item_of q) = true ∧ status (item_of q) = Some "MISSING"
  | Some r => has_gap (item_of q) = false
              ∧ status (item_of q) = Some (status_name (r_status r))
  end.
Proof. unfold item_of, analyze_item. by destruct (record_for _ _ _ _). Qed.

Lemma contributing_items c item :
  item ∈ contributing c (item_of <$> required) ↔
  ∃ q, q ∈ required ∧ q.1.1 = c ∧ item = item_of q.
Proof.
  unfold contributing. rewrite list_elem_of_filter, list_elem_of_fmap. split.
  - intros [Hc (q & Hitem & Hq)]. exists q. subst item.
    by rewrite analyze_item_certification in Hc.
  - intros (q & Hq & Hc & Hitem). subst item.
    rewrite analyze_item_certification. eauto.
Qed.

Lemma required_ids_elem c :
  c ∈ required_ids (ref_rules ref) technologies country ↔
  ∃ q, q ∈ required ∧ q.1.1 = c.
Proof.
  unfold required_ids. rewrite list_elem_of_fmap.
  split; intros (q & ? & ?); eauto.
Qed.

Lemma contributing_required c :
  c ∈ required_ids (ref_rules ref) technologies country →
  contributing c (item_of <$> required) ≠ [].
Proof.
  intros (q & Hq & Hc)%required_ids_elem Hnil.
  assert (item_of q ∈ contributing c (item_of <$> required)) as Hin
    by (apply contributing_items; eauto).
  rewrite Hnil in Hin. by apply not_elem_of_nil in Hin.
Qed.

Lemma status_name_truthy s : JS.truthy (Some (status_name s)) = true.
Proof. by destruct s. Qed.

(** C1: in the response of a gap analysis, every item of a required
    certification without a record has [has_gap = true] and status
    MISSING, and every item of a required certification with a record has
    [has_gap = false] and the status of that record verbatim (EXPIRED
    included); the certification has at least one item, its grouped row
    carries the same flag and status, and both tables display them as
    such. *)
Theorem Analyze_gap_correctness resp c :
  Analyze iso_date ref records product country = inr resp →
  c ∈ required_ids (ref_rules ref) technologies country →
  (∃ item, item ∈ contributing c (results resp))
  ∧ (∀ item, item ∈ contributing c (results resp) →
      match record_for records product country c with
      | None => has_gap item = true ∧ status item = Some "MISSING"
                ∧ render_item_status item = "MISSING"
      | Some r => has_gap item = false
                  ∧ status item = Some (status_name (r_status r))
                  ∧ render_item_status item = status_name (r_status r)
      end)
  ∧ (∃ g, rows_for c (groupedResults (results resp)) = [g]
          ∧ match record_for records product country c with
            | None => g_has_gap g = true ∧ g_status g = Some "MISSING"
                      ∧ render_status g = "MISSING"
            | Some r => g_has_gap g = false
                        ∧ g_status g = Some (status_name (r_status r))
                        ∧ render_status g = status_name (r_status r)
            end).
Proof.
  intros (Hres & _)%Analyze_inr Hc. rewrite Hres.
  assert (∀ item, item ∈ contributing c (item_of <$> required) →
          match record_for records product country c with
          | None => has_gap item = true ∧ status item = Some "MISSING"
          | Some r => has_gap item = false
                      ∧ status item = Some (status_name (r_status r))
          end) as Hitems.
  { intros item (q & _ & <- & ->)%contributing_items. apply analyze_item_report. }
  pose proof (contributing_required c Hc) as Hne.
  split; [|split].
  - destruct (contributing c (item_of <$> required)) as [|item ?] eqn:E; [done|].
    exists item. left.
  - intros item Hitem. specialize (Hitems item Hitem). unfold render_item_status.
    destruct (record_for records product country c) as [r|];
      destruct Hitems as [-> ->]; [|done].
    by rewrite status_name_truthy.
  - destruct (groupedResults_row _ _ Hne) as (g & Hg & Hrow & _ & _ & Hgap).
    exists g. split; [done|]. unfold render_status.
    destruct (record_for records product country c) as [r|] eqn:Hrec.
    + assert (g_has_gap g = false) as ->.
      { destruct (g_has_gap g); [|done].
        destruct Hgap as [(item & Hitem & Hi) _]; [done|].
        apply Hitems in Hitem as [? _]. congruence. }
      rewrite (group_acc_status (item_of <$> required) c
                 (Some (status_name (r_status r))) g); [done| |done].
      intros item Hitem. by apply Hitems in Hitem as [_ ?].
    + assert (g_has_gap g = true) as ->.
      { apply Hgap.
        destruct (contributing c (item_of <$> required)) as [|item ?] eqn:E; [done|].
        exists item. split; [left|]. apply Hitems. left. }
      rewrite (group_acc_status (item_of <$> required) c (Some "MISSING") g);
        [done| |done].
      intros item Hitem. by apply Hitems in Hitem as [_ ?].
Qed.

End GapAnalysisFacts.

Lemma Analyze_gap_correctness_witness :
  ∃ resp g,
    Analyze iso_constant india_reference
      [wpc_record EXPIRED (Some 20000%Z) None] tractor india = inr resp
    ∧ rows_for wpc (groupedResults (results resp)) = [g]
    ∧ g_has_gap g = false
    ∧ g_status g = Some "EXPIRED"
    ∧ render_status g = "EXPIRED".
Proof.
  destruct (Analyze_gap_correctness iso_constant india_reference
              [wpc_record EXPIRED (Some 20000%Z) None] tractor india _ wpc eq_refl)
    as (_ & _ & g & Hrow & Hg).
  { apply (bool_decide_unpack _). vm_compute. exact I. }
  eexists _, g. split; [reflexivity|]. split; [exact Hrow|]. exact Hg.
Defined.



(** ** Expiry and notification sweeper *)

Lemma RunSweep_snoc rules_of as_of_date now records r :
  RunSweep rules_of as_of_date now (records ++ [r]) =
  sweep_step rules_of as_of_date now (RunSweep rules_of as_of_date now records) r.
Proof. unfold RunSweep. by rewrite foldl_app. Qed.

(** A sweep treats the records one by one: the records it persists and the
    alerts it emits are those of the single steps, in order. *)
Lemma RunSweep_records rules_of as_of_date now records :
  sw_records (RunSweep rules_of as_of_date now records) =
  (λ r, record_after r (sweep_record as_of_date now (rules_of (r_tenant_id r)) r))
    <$> records.
Proof.
  induction records as [|r records IH] using rev_ind; [done|].
  rewrite RunSweep_snoc, fmap_app. simpl. by rewrite IH.
Qed.

Lemma RunSweep_alerts rules_of as_of_date now records :
  sw_alerts (RunSweep rules_of as_of_date now records) =
  records ≫= λ r, alerts_of (sweep_record as_of_date now (rules_of (r_tenant_id r)) r).
Proof.
  induction records as [|r records IH] using rev_ind; [done|].
  rewrite RunSweep_snoc, bind_app. simpl. by rewrite IH, app_nil_r.
Qed.

Lemma sweep_record_expired as_of_date now rules r expiry :
  r_status r = ACTIVE ∨ r_status r = EXPIRING →
  r_expiry_date r = Some expiry →
  (expiry < as_of_date)%Z →
  sweep_record as_of_date now rules r = inr (set_status r EXPIRED, []).
Proof.
  intros Hst Hexp Hlt. unfold sweep_record. rewrite Hexp.
  assert ((expiry - as_of_date <? 0)%Z = true) as -> by lia.
  by destruct Hst as [-> | ->].
Qed.

(** C5: a record in status ACTIVE or EXPIRING whose expiry date lies
    strictly before the date of the sweep is persisted with status
    EXPIRED, its notification timestamp untouched; its step emits no
    alert, so the alerts of the whole sweep are those of the sweep
    without this record. *)
Theorem sweep_expires_overdue rules_of as_of_date now records i r expiry :
  records !! i = Some r →
  r_status r = ACTIVE ∨ r_status r = EXPIRING →
  r_expiry_date r = Some expiry →
  (expiry < as_of_date)%Z →
  let after := RunSweep rules_of as_of_date now records in
  (∃ r', sw_records after !! i = Some r' ∧ r_status r' = EXPIRED
         ∧ r_last_notified_at r' = r_last_notified_at r)
  ∧ alerts_of (sweep_record as_of_date now (rules_of (r_tenant_id r)) r) = []
  ∧ sw_alerts after = sw_alerts (RunSweep rules_of as_of_date now (delete i records)).
Proof.
  intros Hi Hst Hexp Hlt after. subst after.
  pose proof (sweep_record_expired as_of_date now (rules_of (r_tenant_id r)) r
                expiry Hst Hexp Hlt) as Hsw.
  split; [|split].
  - exists (set_status r EXPIRED). rewrite RunSweep_records, list_lookup_fmap, Hi.
    simpl. by rewrite Hsw.
  - by rewrite Hsw.
  - rewrite !RunSweep_alerts.
    rewrite <- (take_drop_middle records i r Hi) at 1.
    rewrite delete_take_drop, !bind_app, bind_cons, Hsw. done.
Qed.

(** Scenario D: status EXPIRING, expiry date the day before the sweep. *)
Lemma sweep_expires_overdue_witness :
  ∃ r', sw_records
          (RunSweep ninety_days 20000 1728000000000
             [wpc_record EXPIRING (Some 19999%Z) (Some 1727000000000%Z)])
          !! 0%nat = Some r'
        ∧ r_status r' = EXPIRED
        ∧ sw_alerts
            (RunSweep ninety_days 20000 1728000000000
               [wpc_record EXPIRING (Some 19999%Z) (Some 1727000000000%Z)]) = [].
Proof.
  destruct (sweep_expires_overdue ninety_days 20000 1728000000000
              [wpc_record EXPIRING (Some 19999%Z) (Some 1727000000000%Z)] 0
              (wpc_record EXPIRING (Some 19999%Z) (Some 1727000000000%Z))
              19999 eq_refl (or_intror eq_refl) eq_refl ltac:(lia))
    as ((r' & Hr' & Hst & _) & _ & Halerts).
  exists r'. split; [exact Hr'|]. split; [exact Hst|]. exact Halerts.
Defined.

Lemma alert_due_spec now r :
  alert_due now r = true ↔
  r_last_notified_at r = None
  ∨ ∃ t, r_last_notified_at r = Some t ∧ (DEDUPE_WINDOW < now - t)%Z.
Proof.
  unfold alert_due. destruct (r_last_notified_at r) as [t|].
  - rewrite Z.ltb_lt. split.
    + intros Hlt. right. eauto.
    + intros [?|(t' & [= <-] & ?)]; done.
  - split; [by left|done].
Qed.

(** The two ways a record's step can go through: silently, leaving the
    notification timestamp alone, or with exactly one alert, which
    requires the alert to be due and stamps the record. *)
Lemma sweep_record_alert as_of_date now rules r r' alerts :
  sweep_record as_of_date now rules r = inr (r', alerts) →
  alerts = [] ∧ r_last_notified_at r' = r_last_notified_at r
  ∨ alert_due now r = true ∧ r_last_notified_at r' = Some now
    ∧ r_status r' = EXPIRING
    ∧ ∃ a, alerts = [a] ∧ alert_record_id a = r_id r.
Proof.
  unfold sweep_record.
  destruct (r_status r) eqn:Hst; try (intros [= <- <-]; by left);
    (destruct (r_expiry_date r) as [expiry|]; [|done]);
    (destruct (expiry - as_of_date <? 0)%Z; [intros [= <- <-]; by left|]);
    (destruct (max_threshold rules) as [m|]; [|intros [= <- <-]; by left]);
    (destruct (expiry - as_of_date <=? m)%Z; [|intros [= <- <-]; by left]);
    change (alert_due now (set_status r EXPIRING)) with (alert_due now r);
    (destruct (alert_due now r) eqn:Hdue; intros [= <- <-]; [right|by left]);
    (split; [done|]); (split; [done|]); (split; [done|]); eauto.
Qed.

Lemma sweep_record_status as_of_date now rules r :
  r_status (record_after r (sweep_record as_of_date now rules r)) = ACTIVE →
  r_status r = ACTIVE.
Proof.
  unfold sweep_record.
  destruct (r_status r) eqn:Hst; simpl; try (by rewrite Hst);
    (destruct (r_expiry_date r) as [expiry|]; simpl; [|by rewrite Hst]);
    (destruct (expiry - as_of_date <? 0)%Z; [done|]);
    (destruct (max_threshold rules) as [m|]; simpl; [|by rewrite Hst]);
    (destruct (expiry - as_of_date <=? m)%Z; simpl; [|by rewrite Hst]);
    by destruct (alert_due now (set_status r _)).
Qed.

Lemma sweep_record_alerts_length as_of_date now rules r :
  (length (alerts_of (sweep_record as_of_date now rules r)) ≤ 1)%nat.
Proof.
  destruct (sweep_record as_of_date now rules r) as [|[r' alerts]] eqn:Hsw;
    simpl; [lia|].
  apply sweep_record_alert in Hsw as [[-> _]|(_ & _ & _ & a & -> & _)]; simpl; lia.
Qed.

(** C6: a step emits an alert only if the record's [last_notified_at] is
    null or more than 7 days old, and then stamps it with the current
    time; two steps at most 7 days apart emit at most one alert in total
    (for any record, hence for one already EXPIRING with its timestamp
    set); an EXPIRED record is left as it is, and no step ever produces
    status ACTIVE from another status. *)
Theorem sweep_alert_dedupe as_of_date1 now1 rules1 as_of_date2 now2 rules2 r :
  let first := sweep_record as_of_date1 now1 rules1 r in
  let second := sweep_record as_of_date2 now2 rules2 (record_after r first) in
  (alerts_of first ≠ [] →
     (r_last_notified_at r = None
      ∨ ∃ t, r_last_notified_at r = Some t ∧ (DEDUPE_WINDOW < now1 - t)%Z)
     ∧ r_last_notified_at (record_after r first) = Some now1)
  ∧ ((now2 - now1 ≤ DEDUPE_WINDOW)%Z →
     (length (alerts_of first) + length (alerts_of second) ≤ 1)%nat)
  ∧ (r_status r = EXPIRED →
     first = inr (r, []) ∧ r_status (record_after r first) = EXPIRED)
  ∧ (r_status (record_after r first) = ACTIVE → r_status r = ACTIVE).
Proof.
  intros first second. subst first second.
  split; [|split; [|split]].
  - destruct (sweep_record as_of_date1 now1 rules1 r) as [|[r' alerts]] eqn:Hsw;
      simpl; [done|].
    apply sweep_record_alert in Hsw as [[-> _]|(Hdue & Hnot & _)]; [done|].
    intros _. by apply alert_due_spec in Hdue.
  - intros Hnear.
    destruct (sweep_record as_of_date1 now1 rules1 r) as [|[r' alerts]] eqn:Hsw; simpl.
    { apply sweep_record_alerts_length. }
    apply sweep_record_alert in Hsw as [[-> _]|(_ & Hnot & _ & a & -> & _)]; simpl.
    { apply sweep_record_alerts_length. }
    destruct (sweep_record as_of_date2 now2 rules2 r') as [|[r'' alerts]] eqn:Hsw2;
      simpl; [lia|].
    apply sweep_record_alert in Hsw2 as [[-> _]|(Hdue & _)]; simpl; [lia|].
    apply alert_due_spec in Hdue as [Hnone|(t & Ht & Hlt)]; [congruence|].
    rewrite Hnot in Ht. injection Ht as <-. lia.
  - intros Hst. unfold sweep_record. by rewrite Hst.
  - apply sweep_record_status.
Qed.

(** An EXPIRING record last notified ten days ago is swept on two
    consecutive days: the first sweep alerts, the second does not. *)
Lemma sweep_alert_dedupe_witness :
  (length (alerts_of (sweep_record 20000 1728000000000 (ninety_days "tenant-1")
             (wpc_record EXPIRING (Some 20030%Z) (Some 1727136000000%Z))))
   + length (alerts_of (sweep_record 20001 1728086400000 (ninety_days "tenant-1")
               (record_after (wpc_record EXPIRING (Some 20030%Z) (Some 1727136000000%Z))
                  (sweep_record 20000 1728000000000 (ninety_days "tenant-1")
                     (wpc_record EXPIRING (Some 20030%Z) (Some 1727136000000%Z))))))
   ≤ 1)%nat
  ∧ length (alerts_of (sweep_record 20000 1728000000000 (ninety_days "tenant-1")
              (wpc_record EXPIRING (Some 20030%Z) (Some 1727136000000%Z)))) = 1%nat.
Proof.
  split; [|reflexivity].
  apply (sweep_alert_dedupe 20000 1728000000000 (ninety_days "tenant-1")
           20001 1728086400000 (ninety_days "tenant-1")
           (wpc_record EXPIRING (Some 20030%Z) (Some 1727136000000%Z))).
  vm_compute. discriminate.
Defined.

(** ** Record edit form *)




(** ** Task progress *)

(** C7, as the code has it: with at least one task loaded, the progress
    is the rounded percentage of DONE tasks, whatever value is stored on
    the record; without tasks it is the stored percentage, and 0 only
    when none is stored. *)
Theorem progressPercent_derivation tasks initialProgress :
  (∀ t ts, tasks = Some (t :: ts) →
     progressPercent tasks initialProgress =
       Math_round (float_of_nat (done_count (t :: ts))
                   / float_of_nat (length (t :: ts)) * 100)%float
     ∧ progressPercent tasks initialProgress = progressPercent tasks None)
  ∧ (tasks = None ∨ tasks = Some [] →
     progressPercent tasks initialProgress = default 0%float initialProgress).
Proof.
  split.
  - by intros t ts ->.
  - by intros [-> | ->].
Qed.

Lemma progressPercent_derivation_witness :
  progressPercent (Some [task_with DONE; task_with TODO; task_with IN_PROGRESS])
    (Some 90%float) = 33%float
  ∧ progressPercent (Some []) None = 0%float.
Proof.
  destruct (progressPercent_derivation
              (Some [task_with DONE; task_with TODO; task_with IN_PROGRESS])
              (Some 90%float)) as [Htasks _].
  destruct (Htasks _ _ eq_refl) as [-> _].
  destruct (progressPercent_derivation (Some []) None) as [_ Hnone].
  rewrite (Hnone (or_intror eq_refl)).
  split; vm_compute; reflexivity.
Defined.

(** C7 as stated fails: a record without tasks whose stored percentage is
    40 shows 40, not 0; and with one of two tasks DONE the value is the
    percentage 50, not the ratio one half. *)
Lemma progressPercent_without_tasks_is_stored :
  progressPercent (Some []) (Some 40%float) = 40%float
  ∧ progressPercent None (Some 40%float) = 40%float
  ∧ PrimFloat.eqb (progressPercent (Some []) (Some 40%float)) 0%float = false
  ∧ progressPercent (Some [task_with DONE; task_with TODO]) None = 50%float.
Proof. repeat split; vm_compute; reflexivity. Qed.

(** Doubles are not exact: 23 of 40 tasks DONE show as 57 percent. *)
Example progressPercent_23_of_40 :
  progressPercent
    (Some (replicate 23 (task_with DONE) ++ replicate 17 (task_with TODO))%list)
    None = 57%float.
Proof. vm_compute. reflexivity. Qed.

(** ** Labelling artwork matcher *)

Lemma prefix_length (a b : string) :
  String.prefix a b = true → (String.length a ≤ String.length b)%nat.
Proof.
  revert b. induction a as [|c a IH]; intros [|d b]; simpl; try (done || lia).
  destruct (Ascii.ascii_dec c d); [|done]. intros ?%IH. lia.
Qed.

Lemma prefix_same_length (a b : string) :
  String.prefix a b = true → (String.length b ≤ String.length a)%nat → a = b.
Proof.
  revert b. induction a as [|c a IH]; intros [|d b]; simpl; try (done || lia).
  destruct (Ascii.ascii_dec c d) as [->|]; [|done].
  intros Hp Hl. f_equal. apply IH; [done|lia].
Qed.

Lemma includes_nil (sub : string) : includes "" sub = String.prefix sub "".
Proof. unfold includes. apply orb_false_r. Qed.

Lemma includes_cons (c : Ascii.ascii) (s sub : string) :
  includes (String c s) sub = String.prefix sub (String c s) || includes s sub.
Proof. done. Qed.

Lemma includes_length (s sub : string) :
  includes s sub = true → (String.length sub ≤ String.length s)%nat.
Proof.
  induction s as [|c s IH].
  - rewrite includes_nil. apply prefix_length.
  - rewrite includes_cons.
    intros [?%prefix_length|?%IH]%orb_true_iff; simpl in *; lia.
Qed.

(** A substring as long as the whole string is the string itself. *)
Lemma includes_same_length (s sub : string) :
  includes s sub = true → (String.length s ≤ String.length sub)%nat → sub = s.
Proof.
  destruct s as [|c s].
  - rewrite includes_nil. apply prefix_same_length.
  - rewrite includes_cons.
    intros [Hp|Hi%includes_length]%orb_true_iff Hl; [|simpl in Hl; lia].
    by apply prefix_same_length.
Qed.

Lemma label_matches_wpc_bis record l :
  default "" (toLowerCase <$> r_certification_name record) = "wpc" →
  includes (toLowerCase (l_name l)) "bis" = true →
  includes (toLowerCase (l_name l)) "wpc" = false →
  label_matches record l = false.
Proof.
  intros Hcert Hbis Hwpc. unfold label_matches. rewrite Hcert.
  set (labelName := toLowerCase (l_name l)) in *.
  assert (labelName ≠ "wpc") as Hne.
  { intros Heq. rewrite Heq in Hwpc. by vm_compute in Hwpc. }
  assert (String.eqb labelName "wpc" = false) as -> by by apply String.eqb_neq.
  rewrite Hwpc.
  assert (includes "wpc" labelName = false) as ->.
  { destruct (includes "wpc" labelName) eqn:Hin; [|done].
    apply includes_length in Hbis. apply includes_same_length in Hin; [|done].
    by destruct Hne. }
  rewrite Hbis. done.
Qed.

(** C8, as the code has it: for a record whose certification name
    lowercases to "wpc", a label whose lowercased name contains "bis" but
    not "wpc" does not match and is never the selected label, whatever
    its country and region. *)
Theorem matchingLabel_wpc_excludes_bis record labels l :
  default "" (toLowerCase <$> r_certification_name record) = "wpc" →
  includes (toLowerCase (l_name l)) "bis" = true →
  includes (toLowerCase (l_name l)) "wpc" = false →
  label_matches record l = false
  ∧ matchingLabel (Some record) (Some labels) ≠ Some l.
Proof.
  intros Hcert Hbis Hwpc.
  pose proof (label_matches_wpc_bis record l Hcert Hbis Hwpc) as Hno.
  split; [done|]. simpl. intros [_ Hyes]%find_some. congruence.
Qed.

Lemma matchingLabel_wpc_excludes_bis_witness :
  l_country_id bis_label = Some (r_country_id (wpc_record ACTIVE None None))
  ∧ label_matches (wpc_record ACTIVE None None) bis_label = false.
Proof.
  split; [reflexivity|].
  apply (matchingLabel_wpc_excludes_bis (wpc_record ACTIVE None None) [bis_label]
           bis_label); reflexivity.
Defined.

(** C8 as stated fails: a label named "WPC/BIS Mark" contains "bis" and is
    nevertheless selected for a WPC record, by the name match that comes
    first. *)
Lemma matchingLabel_selects_wpc_bis_label :
  toLowerCase "WPC" = "wpc"
  ∧ includes (toLowerCase (l_name wpc_bis_label)) "bis" = true
  ∧ matchingLabel (Some (wpc_record ACTIVE None None)) (Some [wpc_bis_label])
    = Some wpc_bis_label.
Proof. repeat split; reflexivity. Qed.

(** ** Tenant slice *)






(** ** [daysUntil] *)




(** ** Worked scenarios *)

(** Scenario A: one technology, one rule, no record. *)
Example scenario_A :
  let product := {| d_id := "device-1"; d_tenant_id := "tenant-1";
                    d_technologies := [wifi6e] |} in
  ∃ resp, Analyze iso_constant india_reference [] product india = inr resp
    ∧ total_required resp = 1%nat ∧ gaps_found resp = 1%nat
    ∧ results resp = [item_for wpc "WPC" "Wi-Fi 6E" true "MISSING"].
Proof. eexists. split; [reflexivity|]. repeat split; vm_compute; reflexivity. Qed.

(** Scenario B: the same with an ACTIVE record. *)
Example scenario_B :
  let product := {| d_id := "device-1"; d_tenant_id := "tenant-1";
                    d_technologies := [wifi6e] |} in
  ∃ resp item,
    Analyze iso_constant india_reference
      [wpc_record ACTIVE (Some 20453%Z) None] product india = inr resp
    ∧ gaps_found resp = 0%nat ∧ results resp = [item]
    ∧ has_gap item = false ∧ status item = Some "ACTIVE"
    ∧ expiry_date item = Some "2025-12-31".
Proof.
  eexists _, _. split; [reflexivity|]. repeat split; vm_compute; reflexivity.
Qed.

(** Scenario C: ACTIVE, expiring in 5 days, a 90-day rule: the record
    becomes EXPIRING and one alert is emitted. *)
Example scenario_C :
  let after := RunSweep ninety_days 20000 1728000000000
                 [wpc_record ACTIVE (Some 20005%Z) None] in
  r_status <$> sw_records after = [EXPIRING]
  ∧ r_last_notified_at <$> sw_records after = [Some 1728000000000%Z]
  ∧ sw_alerts after = [{| alert_record_id := "record-1"; alert_days_left := 5 |}]
  ∧ updated (sw_report after) = ["record-1"].
Proof. repeat split; vm_compute; reflexivity. Qed.

(** A record that cannot be evaluated is reported and does not stop the
    sweep. *)
Example sweep_continues_on_failure :
  let after := RunSweep ninety_days 20000 1728000000000
                 [wpc_record ACTIVE None None;
                  wpc_record EXPIRING (Some 19999%Z) None] in
  r_status <$> sw_records after = [ACTIVE; EXPIRED]
  ∧ failed (sw_report after) = ["record-1"].
Proof. repeat split; vm_compute; reflexivity. Qed.

(** Rows come out by ascending certification id, whatever the order of
    the items. *)
Example groupedResults_order :
  g_certification_id <$>
    groupedResults [item_for 9 "BIS" "Bluetooth" false "ACTIVE";
                    item_for wpc "WPC" "Wi-Fi 6E" true "MISSING";
                    item_for wpc "WPC" "Bluetooth" true "MISSING"]
  = [wpc; 9%N].
Proof. vm_compute. reflexivity. Qed.

(** The name rules of the label matcher. *)
Example label_matches_names :
  let record name := {| r_id := "r"; r_tenant_id := "t"; r_device_id := "d";
                        r_country_id := 1; r_certification_id := 1;
                        r_status := ACTIVE; r_labeling_status := None;
                        r_expiry_date := None; r_certificate_number := None;
                        r_last_notified_at := None; r_certification_name := name;
                        r_test_report_filename := None;
                        r_task_progress_percent := None |} in
  let label name := {| l_id := 1; l_name := name; l_country_id := None;
                       l_region := None |} in
  label_matches (record (Some "CE")) (label "CE Mark") = true
  ∧ label_matches (record (Some "TELEC")) (label "Giteki Mark") = true
  ∧ label_matches (record (Some "FCC ID")) (label "US FCC") = true
  ∧ label_matches (record (Some "KC")) (label "CE Mark") = false
  ∧ label_matches (record None) (label "CE Mark") = true.
Proof. repeat split; vm_compute; reflexivity. Qed.

(** [Math.round] on ties, negatives and values just below a tie. *)
Example Math_round_values :
  Math_round 2.5%float = 3%float
  ∧ Math_round 12.5%float = 13%float
  ∧ Math_round (-1.5)%float = (-1)%float
  ∧ Math_round 33.25%float = 33%float
  ∧ Math_round 100%float = 100%float.
Proof. repeat split; vm_compute; reflexivity. Qed.

(** The form in certificate mode: complete data is sent, and an expiry
    date more than a month back is refused. *)
Example submit_certificate_mode :
  submit 19970 (wpc_record PENDING None None) false
    (activate_with_certificate (Some "WPC/2024/12345") (Some 20453%Z))
  = inr {| p_status := Some ACTIVE; p_labeling_status := Some LABEL_PENDING;
           p_certificate_number := Some "WPC/2024/12345";
           p_expiry_date := Some 20453%Z |}
  ∧ submit 19970 (wpc_record PENDING None None) false
      (activate_with_certificate (Some "WPC/2024/12345") (Some 19000%Z))
    = inl ["Expiry date cannot be more than 1 month in the past"]
  ∧ submit 19970 (wpc_record PENDING None None) false activate_with_test_report
    = inl ["Test Report document is required"].
Proof. repeat split; vm_compute; reflexivity. Qed.
